(** * remoulade.message: the Message record and the global encoder

    A shallow embedding of [src/remoulade/message.py] and the properties
    its specification states about it.

    Python values are modelled by value, except dicts: a dict is a mutable
    object with identity, so [VDict a] is a reference to the dict stored at
    address [a] of the heap.  Dict contents are insertion-ordered association
    lists; their keys are strings, as the keys of keyword arguments and of
    [Dict[str, Any]] are.  Floats only occur as progress values.  Every
    function of the module runs in a state and exception monad over a [world]
    holding the heap, the process-wide encoder, the identity generator, the
    clock and the log of the calls made to the external broker and its
    backends. *)

From Stdlib Require Import QArith DecimalString.
From stdpp Require Import gmap strings list fin_maps.

Set Warnings "-register-all".
Local Open Scope string_scope.
Local Open Scope list_scope.
Local Open Scope Z_scope.

(** ** Python values *)

Abbreviation addr := nat (only parsing).

Inductive pyval :=
  | VNone
  | VBool (b : bool)
  | VInt (z : Z)
  | VStr (s : string)
  | VList (l : list pyval)
  | VTuple (l : list pyval)
  | VDict (a : addr).

#[export] Instance pyval_eq_dec : EqDecision pyval.
Proof.
  refine (fix go (x y : pyval) {struct x} : Decision (x = y) :=
    match x, y with
    | VNone, VNone => left _
    | VBool a, VBool b => cast_if (decide (a = b))
    | VInt a, VInt b => cast_if (decide (a = b))
    | VStr a, VStr b => cast_if (decide (a = b))
    | VList a, VList b => cast_if (@list_eq_dec _ go a b)
    | VTuple a, VTuple b => cast_if (@list_eq_dec _ go a b)
    | VDict a, VDict b => cast_if (decide (a = b))
    | _, _ => right _
    end); clear go; congruence.
Defined.

(** The contents of a dict object: keys in insertion order, no key twice. *)
Definition dict := list (string * pyval).

Fixpoint dict_get (k : string) (d : dict) : option pyval :=
  match d with
  | [] => None
  | (k', v) :: d' => if String.eqb k k' then Some v else dict_get k d'
  end.

(** [d[k] = v]: an existing key keeps its position, a new key goes last. *)
Fixpoint dict_set (k : string) (v : pyval) (d : dict) : dict :=
  match d with
  | [] => [(k, v)]
  | (k', v') :: d' =>
      if String.eqb k k' then (k', v) :: d' else (k', v') :: dict_set k v d'
  end.

Fixpoint dict_remove (k : string) (d : dict) : dict :=
  match d with
  | [] => []
  | (k', v') :: d' =>
      if String.eqb k k' then dict_remove k d' else (k', v') :: dict_remove k d'
  end.

(** [d.update(o)] for a mapping [o]: its items are assigned in order. *)
Definition dict_update (d o : dict) : dict :=
  fold_left (fun acc kv => dict_set kv.1 kv.2 acc) o d.

Definition dict_keys (d : dict) : list string := map fst d.

(** ** Numbers accepted as a progress value

    Comparison of Python numbers is exact, so a finite int or float is
    modelled by the rational it denotes; the two infinities and NaN are the
    remaining floats. *)

Inductive pynum :=
  | NReal (q : Q)
  | NInf (negative : bool)
  | NNan.

(** [a <= b] on Python numbers; every comparison with NaN is false. *)
Definition num_le (a b : pynum) : bool :=
  match a, b with
  | NNan, _ | _, NNan => false
  | NReal x, NReal y => Qle_bool x y
  | NInf true, _ => true
  | _, NInf false => true
  | NInf false, _ => false
  | _, NInf true => false
  end.

(** ** Exceptions

    [Unmodelled] marks an outcome outside the model: the use of an address
    that is not in the heap, or of a dict key that is not a string. *)

Inductive exn :=
  | TypeError (msg : string)
  | ValueError (msg : string)
  | AttributeError (msg : string)
  | InvalidProgress (progress : pynum)
  | EncoderError (code : nat)
  | ExternalError (code : nat)
  | Unmodelled (what : string).

Inductive outcome (A : Type) :=
  | Ok (x : A)
  | Raise (e : exn).
Arguments Ok {A} x.
Arguments Raise {A} e.

(** ** External collaborators *)

Abbreviation heap := (gmap nat dict) (only parsing).
Definition bytes := list Byte.byte.

(** The Encoder interface of [remoulade.encoder]: [encode] reads the object
    it is given, [decode] builds new objects.  Both may raise. *)
Record Encoder := {
  enc_encode : heap -> pyval -> outcome bytes;
  enc_decode : heap -> bytes -> outcome (pyval * heap);
}.

(** Modelled from the spec: the [State] record of [remoulade.state], which
    "associates a message_id with a progress value". *)
Record State := { state_message_id : pyval; state_progress : pynum }.

(** Calls that leave the module, in the order they are made. *)
Inductive event :=
  | EGetBroker
  | EGetCancelBackend
  | ECancel (message_ids : list pyval)
  | EGetStateBackend
  | ESetState (state : State).

(** What lies outside the module and is not changed by it: the
    [generate_unique_id] of [remoulade.common] (its n-th draw), the clock
    ([int(time.time() * 1000)] at the n-th reading) and whether a call to the
    broker or a backend fails, given the calls made before it. *)
Record externals := {
  unique_id_at : nat -> string;
  time_ms_at : nat -> Z;
  ext_failure : list event -> event -> option nat;
}.

Record world := {
  heap_of : heap;
  global_encoder : Encoder;
  uid_draws : nat;
  clock_reads : nat;
  trace : list event;
  ext : externals;
}.

Definition with_heap (h : heap) (w : world) : world :=
  {| heap_of := h; global_encoder := global_encoder w;
     uid_draws := uid_draws w; clock_reads := clock_reads w;
     trace := trace w; ext := ext w |}.

(** ** The monad of module functions *)

Definition M (A : Type) : Type := world -> outcome A * world.

Definition ret {A} (x : A) : M A := fun w => (Ok x, w).
Definition raise {A} (e : exn) : M A := fun w => (Raise e, w).
Definition bind {A B} (c : M A) (k : A -> M B) : M B :=
  fun w => match c w with
           | (Ok x, w') => k x w'
           | (Raise e, w') => (Raise e, w')
           end.

#[export] Instance M_ret : MRet M := @ret.
#[export] Instance M_bind : MBind M := fun A B k c => bind c k.

(** A new dict object with contents [d]. *)
Definition alloc (d : dict) : M pyval :=
  fun w => let a := fresh (dom (heap_of w)) in
           (Ok (VDict a), with_heap (<[a := d]> (heap_of w)) w).

(** The contents of the dict a value refers to. *)
Definition contents (h : heap) (v : pyval) : option dict :=
  match v with
  | VDict a => h !! a
  | _ => None
  end.

(** [obj[k] = v] on a dict object. *)
Definition setitem (obj : pyval) (k : string) (v : pyval) : M unit :=
  fun w => match obj with
           | VDict a =>
               match heap_of w !! a with
               | Some d => (Ok tt, with_heap (<[a := dict_set k v d]> (heap_of w)) w)
               | None => (Raise (Unmodelled "dangling reference"), w)
               end
           | _ => (Raise (TypeError "object does not support item assignment"), w)
           end.

(** ** External calls *)

Definition log_event (ev : event) (w : world) : world :=
  {| heap_of := heap_of w; global_encoder := global_encoder w;
     uid_draws := uid_draws w; clock_reads := clock_reads w;
     trace := trace w ++ [ev]; ext := ext w |}.

(** A call to the broker or to one of its backends: it is logged, and it
    raises when the collaborator fails. *)
Definition call (ev : event) : M unit :=
  fun w => match ext_failure (ext w) (trace w) ev with
           | Some code => (Raise (ExternalError code), log_event ev w)
           | None => (Ok tt, log_event ev w)
           end.

(** [generate_unique_id()] consumes one draw of the identity generator. *)
Definition generate_unique_id : M pyval :=
  fun w => (Ok (VStr (unique_id_at (ext w) (uid_draws w))),
            {| heap_of := heap_of w; global_encoder := global_encoder w;
               uid_draws := S (uid_draws w); clock_reads := clock_reads w;
               trace := trace w; ext := ext w |}).

(** [int(time.time() * 1000)] *)
Definition now_ms : M pyval :=
  fun w => (Ok (VInt (time_ms_at (ext w) (clock_reads w))),
            {| heap_of := heap_of w; global_encoder := global_encoder w;
               uid_draws := uid_draws w; clock_reads := S (clock_reads w);
               trace := trace w; ext := ext w |}).

(** ** The global encoder *)

Definition get_encoder : M Encoder :=
  fun w => (Ok (global_encoder w), w).

Definition set_encoder (encoder : Encoder) : M unit :=
  fun w => (Ok tt,
            {| heap_of := heap_of w; global_encoder := encoder;
               uid_draws := uid_draws w; clock_reads := clock_reads w;
               trace := trace w; ext := ext w |}).

(** ** Message *)

Record Message := {
  queue_name : pyval;
  actor_name : pyval;
  args : list pyval;        (* the items of the tuple *)
  kwargs : pyval;
  options : pyval;
  message_id : pyval;
  message_timestamp : pyval;
}.

Definition field_names : list string :=
  ["queue_name"; "actor_name"; "args"; "kwargs"; "options";
   "message_id"; "message_timestamp"].

(** The items of an iterable, in iteration order: a list or a tuple gives
    its items, a string its characters, a dict its keys. *)
Definition iter_items (h : gmap nat dict) (v : pyval) : option (list pyval) :=
  match v with
  | VList l | VTuple l => Some l
  | VStr s => Some (map (fun c => VStr (String c EmptyString)) (String.list_ascii_of_string s))
  | VDict a => (fun d => map VStr (dict_keys d)) <$> h !! a
  | VNone | VBool _ | VInt _ => None
  end.

(** [tuple(v)], the converter of the [args] field. *)
Definition tuple (v : pyval) : M (list pyval) :=
  fun w => match iter_items (heap_of w) v with
           | Some l => (Ok l, w)
           | None => (Raise (TypeError "object is not iterable"), w)
           end.

Definition unexpected_keyword (kw : dict) : option string :=
  find (fun k => negb (existsb (String.eqb k) field_names)) (dict_keys kw).

Definition required (k : string) (kw : dict) : M pyval :=
  match dict_get k kw with
  | Some v => mret v
  | None => raise (TypeError ("missing required keyword-only argument " ++ k)%string)
  end.

Definition or_default (k : string) (kw : dict) (factory : M pyval) : M pyval :=
  match dict_get k kw with
  | Some v => mret v
  | None => factory
  end.

(** [Message] called with the keyword arguments [kw]: the keyword-only
    [__init__] that attrs generates.
    No field is validated; [args] goes through its converter and the two
    last fields have factories. *)
Definition Message_init (kw : dict) : M Message :=
  match unexpected_keyword kw with
  | Some k => raise (TypeError ("unexpected keyword argument " ++ k)%string)
  | None =>
      q ← required "queue_name" kw;
      a ← required "actor_name" kw;
      ar ← required "args" kw;
      kws ← required "kwargs" kw;
      opts ← required "options" kw;
      items ← tuple ar;
      mid ← or_default "message_id" kw generate_unique_id;
      ts ← or_default "message_timestamp" kw now_ms;
      mret {| queue_name := q; actor_name := a; args := items; kwargs := kws;
              options := opts; message_id := mid; message_timestamp := ts |}
  end.

(** The items of [attr.asdict(self, recurse=False)]. *)
Definition fields (self : Message) : dict :=
  [("queue_name", queue_name self); ("actor_name", actor_name self);
   ("args", VTuple (args self)); ("kwargs", kwargs self);
   ("options", options self); ("message_id", message_id self);
   ("message_timestamp", message_timestamp self)].

Definition asdict (self : Message) : M pyval := alloc (fields self).

(** [cls] called with the unpacked mapping [v]. *)
Definition Message_from_mapping (v : pyval) : M Message :=
  fun w => match v with
           | VDict a =>
               match heap_of w !! a with
               | Some kw => Message_init kw w
               | None => (Raise (Unmodelled "dangling reference"), w)
               end
           | _ => (Raise (TypeError "argument after ** must be a mapping"), w)
           end.

(** [global_encoder.decode(data)] and [global_encoder.encode(d)]: the
    encoder is read from the global at the time of the call. *)
Definition encoder_decode (data : bytes) : M pyval :=
  fun w => match enc_decode (global_encoder w) (heap_of w) data with
           | Ok (v, h) => (Ok v, with_heap h w)
           | Raise e => (Raise e, w)
           end.

Definition encoder_encode (d : pyval) : M bytes :=
  fun w => (enc_encode (global_encoder w) (heap_of w) d, w).

Definition decode (data : bytes) : M Message :=
  v ← encoder_decode data;
  Message_from_mapping v.

Definition encode (self : Message) : M bytes :=
  d ← asdict self;
  encoder_encode d.

(** [obj.copy()]: dicts and lists have the method. *)
Definition method_copy (obj : pyval) : M pyval :=
  fun w => match obj with
           | VDict a =>
               match heap_of w !! a with
               | Some d => alloc d w
               | None => (Raise (Unmodelled "dangling reference"), w)
               end
           | VList l => (Ok (VList l), w)
           | _ => (Raise (AttributeError "copy"), w)
           end.

(** [target.update(items)] for an iterable of key/value pairs. *)
Fixpoint update_pairs (target : pyval) (items : list pyval) : M unit :=
  match items with
  | [] => mret tt
  | it :: rest =>
      fun w =>
        match iter_items (heap_of w) it with
        | None => (Raise (TypeError "update sequence element is not a sequence"), w)
        | Some [VStr k; v] => (setitem target k v ≫= fun _ => update_pairs target rest) w
        | Some [VList _; _] | Some [VDict _; _] => (Raise (TypeError "unhashable type"), w)
        | Some [_; _] => (Raise (Unmodelled "key that is not a string"), w)
        | Some _ => (Raise (ValueError "update sequence element has length other than 2"), w)
        end
  end.

(** [target.update(other)]: only dicts have the method; a mapping is merged
    into the target, any other iterable is read as key/value pairs. *)
Definition method_update (target other : pyval) : M unit :=
  fun w => match target with
           | VDict a =>
               match heap_of w !! a, other with
               | None, _ => (Raise (Unmodelled "dangling reference"), w)
               | Some d, VDict b =>
                   match heap_of w !! b with
                   | Some o => (Ok tt, with_heap (<[a := dict_update d o]> (heap_of w)) w)
                   | None => (Raise (Unmodelled "dangling reference"), w)
                   end
               | Some d, _ =>
                   match iter_items (heap_of w) other with
                   | Some items => update_pairs target items w
                   | None => (Raise (TypeError "object is not iterable"), w)
                   end
               end
           | _ => (Raise (AttributeError "update"), w)
           end.

(** [attr.evolve(inst, **changes)]: every field absent from [changes] is
    read from [inst], then the class is called. *)
Definition evolve (inst : Message) (changes : dict) : M Message :=
  Message_init
    (fold_left (fun ch kv => match dict_get kv.1 ch with
                             | Some _ => ch
                             | None => dict_set kv.1 kv.2 ch
                             end)
               (fields inst) changes).

Definition copy (self : Message) (attributes : dict) : M Message :=
  empty ← alloc [];
  let updated_options := default empty (dict_get "options" attributes) in
  let attributes := dict_remove "options" attributes in
  options ← method_copy (options self);
  method_update options updated_options;;
  evolve self (dict_set "options" options attributes).

Definition build (self : Message) (options : pyval) : M Message :=
  copy self [("options", options)].

(** Modelled from the spec: the [pipeline] of [remoulade.composition], "an
    externally-defined ordered Pipeline" that holds the elements it is
    constructed with, in order. *)
Inductive composition :=
  | Single (m : Message)
  | Pipeline (children : list composition).

Definition pipeline (children : list composition) : M composition :=
  mret (Pipeline children).

(** [self | other] *)
Definition or_ (self : Message) (other : composition) : M composition :=
  pipeline [Single self; other].

Definition cancel (self : Message) : M unit :=
  call EGetBroker;;
  call EGetCancelBackend;;
  call (ECancel [message_id self]).

(** [0 <= progress <= 1] *)
Definition in_unit_interval (progress : pynum) : bool :=
  num_le (NReal 0) progress && num_le progress (NReal 1).

Definition set_progress (self : Message) (progress : pynum) : M unit :=
  if negb (in_unit_interval progress)
  then raise (InvalidProgress progress)
  else
    call EGetBroker;;
    call EGetStateBackend;;
    call (ESetState {| state_message_id := message_id self;
                       state_progress := progress |}).

(** ** Programs over the module

    A caller's program is a sequence of operations on the module and on the
    dicts it shares with it. *)
Inductive op :=
  | OpGetEncoder
  | OpSetEncoder (encoder : Encoder)
  | OpNewDict (d : dict)
  | OpSetItem (obj : pyval) (k : string) (v : pyval)
  | OpInit (kw : dict)
  | OpAsdict (m : Message)
  | OpDecode (data : bytes)
  | OpEncode (m : Message)
  | OpCopy (m : Message) (attributes : dict)
  | OpBuild (m : Message) (options : pyval)
  | OpOr (m : Message) (other : composition)
  | OpCancel (m : Message)
  | OpSetProgress (m : Message) (progress : pynum).

Definition step (o : op) (w : world) : world :=
  match o with
  | OpGetEncoder => (get_encoder w).2
  | OpSetEncoder e => (set_encoder e w).2
  | OpNewDict d => (alloc d w).2
  | OpSetItem obj k v => (setitem obj k v w).2
  | OpInit kw => (Message_init kw w).2
  | OpAsdict m => (asdict m w).2
  | OpDecode data => (decode data w).2
  | OpEncode m => (encode m w).2
  | OpCopy m attributes => (copy m attributes w).2
  | OpBuild m o => (build m o w).2
  | OpOr m other => (or_ m other w).2
  | OpCancel m => (cancel m w).2
  | OpSetProgress m p => (set_progress m p w).2
  end.

Definition run (prog : list op) (w : world) : world :=
  fold_left (fun w o => step o w) prog w.

Definition is_set_encoder (o : op) : bool :=
  match o with
  | OpSetEncoder _ => true
  | _ => false
  end.

(** ** Value equality

    [py_eq h v v'] : the values [v] and [v'] are equal by value in the heap
    [h], as Python's [==] on them: an object equals itself, a bool equals the
    integer 0 or 1 it stands for, sequences of the same type are equal item
    by item, and two dicts are equal when they hold equal values under the
    same keys, whatever their order and identity. *)
Inductive py_eq (h : gmap nat dict) : pyval -> pyval -> Prop :=
  | py_eq_same v : py_eq h v v
  | py_eq_bool_int b : py_eq h (VBool b) (VInt (Z.b2z b))
  | py_eq_int_bool b : py_eq h (VInt (Z.b2z b)) (VBool b)
  | py_eq_list l l' : Forall2 (py_eq h) l l' -> py_eq h (VList l) (VList l')
  | py_eq_tuple l l' : Forall2 (py_eq h) l l' -> py_eq h (VTuple l) (VTuple l')
  | py_eq_dict a a' d d' :
      h !! a = Some d -> h !! a' = Some d' ->
      (forall k, option_Forall2 (py_eq h) (dict_get k d) (dict_get k d')) ->
      py_eq h (VDict a) (VDict a').

(** Equality of two messages, as the [__eq__] that attrs generates:
    field by field. *)
Definition Message_eq (h : gmap nat dict) (m m' : Message) : Prop :=
  py_eq h (queue_name m) (queue_name m') /\
  py_eq h (actor_name m) (actor_name m') /\
  py_eq h (VTuple (args m)) (VTuple (args m')) /\
  py_eq h (kwargs m) (kwargs m') /\
  py_eq h (options m) (options m') /\
  py_eq h (message_id m) (message_id m') /\
  py_eq h (message_timestamp m) (message_timestamp m').

(** The items of a list or of a tuple. *)
Definition sequence_items (v : pyval) : option (list pyval) :=
  match v with
  | VList l | VTuple l => Some l
  | _ => None
  end.

(** Two sequences, each one a list or a tuple, with equal items in the same
    order: [(1, 2)] and [[1, 2]] are the same sequence, although Python's
    [==] tells them apart. *)
Definition same_sequence (h : gmap nat dict) (v v' : pyval) : Prop :=
  exists l l',
    sequence_items v = Some l /\ sequence_items v' = Some l' /\
    Forall2 (py_eq h) l l'.

(** A field of a mapping and the field decoded for it: [args] travels as an
    ordered list, so an encoder may give back a list for a tuple; every
    other field comes back equal. *)
Definition field_eq (h : gmap nat dict) (k : string) (x x' : pyval) : Prop :=
  if String.eqb k "args" then same_sequence h x x' else py_eq h x x'.

(** Two field mappings with the same keys and the same fields. *)
Definition mapping_eq (h : gmap nat dict) (d v : pyval) : Prop :=
  exists a a' fs fs',
    d = VDict a /\ v = VDict a' /\
    h !! a = Some fs /\ h !! a' = Some fs' /\
    forall k, option_Forall2 (field_eq h k) (dict_get k fs) (dict_get k fs').

(** Modelled from the spec: the contract of an [Encoder], "[encode
    (field_mapping) -> bytes], [decode(bytes) -> field_mapping], with the
    field mapping containing exactly the seven Message fields by name.  Must
    round-trip", where the wire field set has "[args] (ordered list)".
    At the mapping [d] of the heap [h]: [d] is encoded, the payload is
    decoded to new objects without touching the existing ones, and the
    decoded mapping has the keys and the fields of [d], its [args] as a list
    or as a tuple. *)
Definition round_trips (e : Encoder) (h : gmap nat dict) (d : pyval) : Prop :=
  exists data v h',
    enc_encode e h d = Ok data /\
    enc_decode e h data = Ok (v, h') /\
    h ⊆ h' /\
    mapping_eq h' d v.

Definition required_names : list string :=
  ["queue_name"; "actor_name"; "args"; "kwargs"; "options"].

(** The mapping merged into the options by [copy]: the override, or the
    empty default. *)
Definition override_contents (h : gmap nat dict) (attributes : dict) : option dict :=
  match dict_get "options" attributes with
  | Some v => contents h v
  | None => Some []
  end.

(** The message [copy] builds from [self], the overrides, the items of the
    new [args] and the new options object. *)
Definition copied (self : Message) (attributes : dict)
    (items : list pyval) (new_options : pyval) : Message :=
  {| queue_name := default (queue_name self) (dict_get "queue_name" attributes);
     actor_name := default (actor_name self) (dict_get "actor_name" attributes);
     args := items;
     kwargs := default (kwargs self) (dict_get "kwargs" attributes);
     options := new_options;
     message_id := default (message_id self) (dict_get "message_id" attributes);
     message_timestamp :=
       default (message_timestamp self) (dict_get "message_timestamp" attributes) |}.

(** Encoding and decoding with a given encoder [e], whatever the global
    one is. *)
Definition encode_with (e : Encoder) (self : Message) : M bytes :=
  d ← asdict self;
  ((fun w => (enc_encode e (heap_of w) d, w)) : M bytes).

Definition decode_with (e : Encoder) (data : bytes) : M Message :=
  fun w => match enc_decode e (heap_of w) data with
           | Ok (v, h) => Message_from_mapping v (with_heap h w)
           | Raise x => (Raise x, w)
           end.

(** A call of the class binds its parameters when every keyword names a
    field and the five fields without default are given. *)
Definition binds_fields (kw : dict) : bool :=
  match unexpected_keyword kw with
  | Some _ => false
  | None => forallb (fun k => bool_decide (is_Some (dict_get k kw))) required_names
  end.

(** The world after a successful call of the class: a default that is not
    given has cost a draw of the identity generator or a reading of the
    clock. *)
Definition after_init (kw : dict) (w : world) : world :=
  {| heap_of := heap_of w; global_encoder := global_encoder w;
     uid_draws := match dict_get "message_id" kw with
                  | Some _ => uid_draws w
                  | None => S (uid_draws w)
                  end;
     clock_reads := match dict_get "message_timestamp" kw with
                    | Some _ => clock_reads w
                    | None => S (clock_reads w)
                    end;
     trace := trace w; ext := ext w |}.

(** The address of the options dict that [copy] builds in the heap [h] (its
    second allocation, after the default of [pop]) and the heap it leaves
    when the options of the copy are [merged]. *)
Definition new_options_addr (h : gmap nat dict) : nat :=
  fresh (dom (<[fresh (dom h) := []]> h)).

Definition heap_after_copy (h : gmap nat dict) (merged : dict) : gmap nat dict :=
  <[new_options_addr h := merged]> (<[fresh (dom h) := []]> h).

(** The message [evolve] builds from [inst], the changes and the items of
    the new [args]. *)
Definition evolved (inst : Message) (changes : dict) (items : list pyval) : Message :=
  {| queue_name := default (queue_name inst) (dict_get "queue_name" changes);
     actor_name := default (actor_name inst) (dict_get "actor_name" changes);
     args := items;
     kwargs := default (kwargs inst) (dict_get "kwargs" changes);
     options := default (options inst) (dict_get "options" changes);
     message_id := default (message_id inst) (dict_get "message_id" changes);
     message_timestamp :=
       default (message_timestamp inst) (dict_get "message_timestamp" changes) |}.

(** ** A concrete encoder and world

    The encoders of [remoulade.encoder] are outside this module.  The
    examples below run the module with a small self-describing binary
    encoder: a tag byte per value, lengths and integers written bit by bit,
    dicts written with their keys. *)

Fixpoint pos_bytes (p : positive) : bytes :=
  match p with
  | xH => [Byte.x01]
  | xO p => Byte.x02 :: pos_bytes p
  | xI p => Byte.x03 :: pos_bytes p
  end.

Definition nat_bytes (n : nat) : bytes :=
  match N.of_nat n with
  | N0 => [Byte.x00]
  | Npos p => pos_bytes p
  end.

Definition Z_bytes (z : Z) : bytes :=
  match z with
  | Z0 => [Byte.x00]
  | Zpos p => Byte.x01 :: pos_bytes p
  | Zneg p => Byte.x02 :: pos_bytes p
  end.

Definition str_bytes (s : string) : bytes :=
  nat_bytes (String.length s) ++ map Ascii.byte_of_ascii (String.list_ascii_of_string s).

Fixpoint read_pos (bs : bytes) : option (positive * bytes) :=
  match bs with
  | Byte.x01 :: r => Some (xH, r)
  | Byte.x02 :: r => '(p, r') ← read_pos r; Some (xO p, r')
  | Byte.x03 :: r => '(p, r') ← read_pos r; Some (xI p, r')
  | _ => None
  end.

Definition read_nat (bs : bytes) : option (nat * bytes) :=
  match bs with
  | Byte.x00 :: r => Some (O, r)
  | _ => '(p, r) ← read_pos bs; Some (Pos.to_nat p, r)
  end.

Definition read_Z (bs : bytes) : option (Z * bytes) :=
  match bs with
  | Byte.x00 :: r => Some (Z0, r)
  | Byte.x01 :: r => '(p, r') ← read_pos r; Some (Zpos p, r')
  | Byte.x02 :: r => '(p, r') ← read_pos r; Some (Zneg p, r')
  | _ => None
  end.

Definition read_str (bs : bytes) : option (string * bytes) :=
  '(n, r) ← read_nat bs;
  if decide (n ≤ length r)%nat
  then Some (String.string_of_list_ascii (map Ascii.ascii_of_byte (take n r)), drop n r)
  else None.

(** Serialisation follows the references of the heap, [n] levels deep. *)
Fixpoint serialise (n : nat) (h : gmap nat dict) (v : pyval) : option bytes :=
  match n with
  | O => None
  | S n =>
      match v with
      | VNone => Some [Byte.x10]
      | VBool true => Some [Byte.x11]
      | VBool false => Some [Byte.x12]
      | VInt z => Some (Byte.x13 :: Z_bytes z)
      | VStr s => Some (Byte.x14 :: str_bytes s)
      | VList l =>
          bs ← mapM (serialise n h) l;
          Some (Byte.x15 :: nat_bytes (length l) ++ concat bs)
      | VTuple l =>
          bs ← mapM (serialise n h) l;
          Some (Byte.x16 :: nat_bytes (length l) ++ concat bs)
      | VDict a =>
          d ← h !! a;
          bs ← mapM (fun kv => b ← serialise n h kv.2; Some (str_bytes kv.1 ++ b)) d;
          Some (Byte.x17 :: nat_bytes (length d) ++ concat bs)
      end
  end.

Definition parser (A : Type) : Type :=
  bytes -> gmap nat dict -> option (A * bytes * gmap nat dict).

Fixpoint parse_seq (p : parser pyval) (count : nat) : parser (list pyval) :=
  fun bs h =>
    match count with
    | O => Some ([], bs, h)
    | S count =>
        '(v, r, h) ← p bs h;
        '(vs, r, h) ← parse_seq p count r h;
        Some (v :: vs, r, h)
    end.

Fixpoint parse_items (p : parser pyval) (count : nat) (acc : dict) : parser dict :=
  fun bs h =>
    match count with
    | O => Some (acc, bs, h)
    | S count =>
        '(k, r) ← read_str bs;
        '(v, r, h) ← p r h;
        parse_items p count (dict_set k v acc) r h
    end.

(** Parsing builds a new dict object for every dict of the payload. *)
Fixpoint parse (n : nat) : parser pyval :=
  fun bs h =>
    match n with
    | O => None
    | S n =>
        match bs with
        | Byte.x10 :: r => Some (VNone, r, h)
        | Byte.x11 :: r => Some (VBool true, r, h)
        | Byte.x12 :: r => Some (VBool false, r, h)
        | Byte.x13 :: r => '(z, r) ← read_Z r; Some (VInt z, r, h)
        | Byte.x14 :: r => '(s, r) ← read_str r; Some (VStr s, r, h)
        | Byte.x15 :: r =>
            '(c, r) ← read_nat r;
            '(vs, r, h) ← parse_seq (parse n) c r h;
            Some (VList vs, r, h)
        | Byte.x16 :: r =>
            '(c, r) ← read_nat r;
            '(vs, r, h) ← parse_seq (parse n) c r h;
            Some (VTuple vs, r, h)
        | Byte.x17 :: r =>
            '(c, r) ← read_nat r;
            '(d, r, h) ← parse_items (parse n) c [] r h;
            Some (VDict (fresh (dom h)), r, <[fresh (dom h) := d]> h)
        | _ => None
        end
    end.

Definition TaggedEncoder : Encoder :=
  {| enc_encode h v :=
       match serialise 8 h v with
       | Some data => Ok data
       | None => Raise (EncoderError 0)
       end;
     enc_decode h data :=
       match parse (length data) data h with
       | Some (v, [], h') => Ok (v, h')
       | _ => Raise (EncoderError 1)
       end |}.

Definition sample_externals : externals :=
  {| unique_id_at n := String.append "id-" (String.concat "" (repeat "x" n));
     time_ms_at n := 1700000000000 + Z.of_nat n;
     ext_failure _ _ := None |}.

(** A world in which the caller holds three dicts. *)
Definition sample_world : world :=
  {| heap_of := {[ 0%nat := [("n", VInt 1)];
                   1%nat := [("a", VInt 1); ("b", VInt 2)];
                   2%nat := [("b", VInt 3); ("c", VInt 4)] ]};
     global_encoder := TaggedEncoder;
     uid_draws := 0; clock_reads := 0; trace := [];
     ext := sample_externals |}.

Definition sample_message : Message :=
  {| queue_name := VStr "default"; actor_name := VStr "add";
     args := [VInt 1; VInt 2; VInt 3];
     kwargs := VDict 0; options := VDict 1;
     message_id := VStr "id-0"; message_timestamp := VInt 1700000000000 |}.

(** A second encoder, which writes the payload of the first one backwards. *)
Definition ReversedEncoder : Encoder :=
  {| enc_encode h v :=
       match enc_encode TaggedEncoder h v with
       | Ok data => Ok (rev data)
       | Raise e => Raise e
       end;
     enc_decode h data := enc_decode TaggedEncoder h (rev data) |}.

(** An encoder without tuples, as JSON: a tuple is written as a list, at any
    depth, and so comes back as a list. *)
Fixpoint serialise_listed (n : nat) (h : gmap nat dict) (v : pyval) : option bytes :=
  match n with
  | O => None
  | S n =>
      match v with
      | VList l | VTuple l =>
          bs ← mapM (serialise_listed n h) l;
          Some (Byte.x15 :: nat_bytes (length l) ++ concat bs)
      | VDict a =>
          d ← h !! a;
          bs ← mapM (fun kv => b ← serialise_listed n h kv.2; Some (str_bytes kv.1 ++ b)) d;
          Some (Byte.x17 :: nat_bytes (length d) ++ concat bs)
      | VNone | VBool _ | VInt _ | VStr _ => serialise 1 h v
      end
  end.

Definition ListEncoder : Encoder :=
  {| enc_encode h v :=
       match serialise_listed 8 h v with
       | Some data => Ok data
       | None => Raise (EncoderError 0)
       end;
     enc_decode := enc_decode TaggedEncoder |}.

(** The sample world after [set_encoder(ListEncoder)]. *)
Definition list_world : world :=
  {| heap_of := heap_of sample_world;
     global_encoder := ListEncoder;
     uid_draws := 0; clock_reads := 0; trace := [];
     ext := sample_externals |}.

(** Keyword arguments of a call of the class that leaves the id and the
    timestamp to their factories, and their encoding. *)
Definition sample_kw : dict :=
  [("queue_name", VStr "default"); ("actor_name", VStr "add");
   ("args", VList [VInt 1; VInt 2; VInt 3]);
   ("kwargs", VDict 0); ("options", VDict 1)].

Definition sample_payload : bytes :=
  Eval vm_compute in
    match serialise 8 (<[3%nat := sample_kw]> (heap_of sample_world)) (VDict 3) with
    | Some data => data
    | None => []
    end.

(** A computation that leaves the global encoder as it finds it. *)
Definition keeps_encoder {A} (c : M A) : Prop :=
  forall w, global_encoder (c w).2 = global_encoder w.

(** ** The remaining methods *)

(** Modelled from the spec: the [Result] of [remoulade.result], a handle
    "referencing this message's message_id". *)
Record Result := { result_message_id : pyval }.

(** The [result] property. *)
Definition result (self : Message) : Result :=
  {| result_message_id := message_id self |}.

(** The text an f-string writes for a value: a string as it is, [None], a
    bool and an int by their [str]; the [repr] of a container is outside the
    model. *)
Definition format_value (v : pyval) : outcome string :=
  match v with
  | VStr s => Ok s
  | VNone => Ok "None"
  | VBool true => Ok "True"
  | VBool false => Ok "False"
  | VInt z => Ok (NilZero.string_of_int (Z.to_int z))
  | VList _ | VTuple _ | VDict _ => Raise (Unmodelled "repr of a container")
  end.

(** [__str__] *)
Definition Message_str (self : Message) : outcome string :=
  match format_value (actor_name self) with
  | Ok actor =>
      match format_value (message_id self) with
      | Ok id => Ok (actor ++ " / " ++ id)%string
      | Raise e => Raise e
      end
  | Raise e => Raise e
  end.

(** ** Callers *)

(** Successive calls of the class, one for each element of [kws]. *)
Fixpoint init_all (kws : list dict) : M (list Message) :=
  match kws with
  | [] => mret []
  | kw :: rest =>
      m ← Message_init kw;
      ms ← init_all rest;
      mret (m :: ms)
  end.

(** An encoder whose [decode] leaves the existing objects as they are. *)
Definition only_allocates (e : Encoder) : Prop :=
  forall h data v h', enc_decode e h data = Ok (v, h') -> h ⊆ h'.

(** An operation of the module itself, not an assignment by the caller;
    the encoder it installs, if any, only allocates. *)
Definition module_operation (o : op) : Prop :=
  match o with
  | OpSetItem _ _ _ => False
  | OpSetEncoder e => only_allocates e
  | _ => True
  end.

(** Two worlds that differ at most by their heaps. *)
Definition same_outside_heap (w w' : world) : Prop :=
  global_encoder w' = global_encoder w /\
  uid_draws w' = uid_draws w /\
  clock_reads w' = clock_reads w /\
  trace w' = trace w /\
  ext w' = ext w.

(** [w'] differs from [w] at most by the dict at address [a]. *)
Definition changes_at_most (a : nat) (w w' : world) : Prop :=
  same_outside_heap w w' /\
  forall b, b <> a -> heap_of w' !! b = heap_of w !! b.

(** The result [r] of a method that delegates to the calls [full], starting
    in the world [w]: the calls are made in order, each one only if those
    before it succeeded; the method succeeds when all of them did, and
    otherwise raises the failure of the last call it made; nothing but the
    log of calls changes. *)
Definition delegates (full : list event) (w : world) (r : outcome unit * world) : Prop :=
  heap_of r.2 = heap_of w /\ global_encoder r.2 = global_encoder w /\
  uid_draws r.2 = uid_draws w /\ clock_reads r.2 = clock_reads w /\
  ext r.2 = ext w /\
  exists calls,
    trace r.2 = trace w ++ calls /\
    calls `prefix_of` full /\
    (forall i ev, calls !! i = Some ev -> (S i < length calls)%nat ->
       ext_failure (ext w) (trace w ++ take i calls) ev = None) /\
    match r.1 with
    | Ok _ =>
        calls = full /\
        forall i ev, calls !! i = Some ev ->
          ext_failure (ext w) (trace w ++ take i calls) ev = None
    | Raise e =>
        exists before ev code,
          calls = before ++ [ev] /\ e = ExternalError code /\
          ext_failure (ext w) (trace w ++ before) ev = Some code
    end.

(** The payload of the sample message when its [args] are written as a
    list, and the message this payload is decoded to in the sample world,
    whose [kwargs] and [options] are the new dicts 3 and 4. *)
Definition sample_list_payload : bytes :=
  Eval vm_compute in
    match serialise 8
            (<[3%nat := dict_set "args" (VList (args sample_message))
                                 (fields sample_message)]> (heap_of sample_world))
            (VDict 3) with
    | Some data => data
    | None => []
    end.

Definition decoded_message : Message :=
  {| queue_name := VStr "default"; actor_name := VStr "add";
     args := [VInt 1; VInt 2; VInt 3];
     kwargs := VDict 3; options := VDict 4;
     message_id := VStr "id-0"; message_timestamp := VInt 1700000000000 |}.

(** * Properties *)

(** ** The monad *)

Lemma bind_Ok {A B} (c : M A) (k : A -> M B) w x w' :
  c w = (Ok x, w') -> (c ≫= k) w = k x w'.
Proof. intros H. unfold mbind, M_bind, bind. by rewrite H. Qed.

(** ** Dict contents *)

Lemma dict_get_set k k' v d :
  dict_get k' (dict_set k v d) = if String.eqb k' k then Some v else dict_get k' d.
Proof.
  induction d as [|[k0 v0] d IH]; simpl.
  - done.
  - destruct (String.eqb k k0) eqn:E; simpl.
    + apply String.eqb_eq in E as ->. by destruct (String.eqb k' k0).
    + rewrite IH. destruct (String.eqb k' k0) eqn:E'; [|done].
      apply String.eqb_eq in E' as ->. by rewrite String.eqb_sym, E.
Qed.

Lemma dict_get_remove k k' d :
  dict_get k' (dict_remove k d) = if String.eqb k' k then None else dict_get k' d.
Proof.
  induction d as [|[k0 v0] d IH]; simpl.
  - by destruct (String.eqb k' k).
  - destruct (String.eqb k k0) eqn:E; simpl.
    + apply String.eqb_eq in E as <-. rewrite IH. by destruct (String.eqb k' k).
    + rewrite IH. destruct (String.eqb k' k0) eqn:E'; [|done].
      apply String.eqb_eq in E' as ->. by rewrite String.eqb_sym, E.
Qed.

Lemma dict_get_None k d : dict_get k d = None <-> k ∉ dict_keys d.
Proof.
  induction d as [|[k0 v0] d IH]; simpl.
  - split; [intros _; apply not_elem_of_nil | done].
  - rewrite not_elem_of_cons, <- IH.
    destruct (String.eqb k k0) eqn:E.
    + apply String.eqb_eq in E. split; [done | tauto].
    + apply String.eqb_neq in E. tauto.
Qed.

Lemma dict_get_Some_key k d v : dict_get k d = Some v -> k ∈ dict_keys d.
Proof.
  intros H. destruct (decide (k ∈ dict_keys d)) as [|Hn]; [done|].
  apply dict_get_None in Hn. congruence.
Qed.

(** After [d.update(o)] a key of [o] has the value [o] gives it and every
    other key keeps the value it has in [d]. *)
Lemma dict_get_update k d o :
  NoDup (dict_keys o) ->
  dict_get k (dict_update d o) =
    match dict_get k o with Some v => Some v | None => dict_get k d end.
Proof.
  unfold dict_update. revert d.
  induction o as [|[k0 v0] o IH]; intros d Hnd; simpl; [done|].
  simpl in Hnd. apply NoDup_cons in Hnd as [Hk0 Hnd].
  rewrite IH by done.
  destruct (String.eqb k k0) eqn:E.
  - apply String.eqb_eq in E as ->.
    apply dict_get_None in Hk0. rewrite Hk0, dict_get_set.
    by rewrite String.eqb_refl.
  - destruct (dict_get k o); [done|]. by rewrite dict_get_set, E.
Qed.

Lemma dict_update_nil d : dict_update d [] = d.
Proof. done. Qed.

(** ** Progress reporting *)

Lemma in_unit_interval_real q :
  in_unit_interval (NReal q) = true <-> (0 <= q /\ q <= 1)%Q.
Proof.
  unfold in_unit_interval, num_le.
  rewrite andb_true_iff, !Qle_bool_iff. done.
Qed.

(** An accepted value goes to the broker: the outcome is a success or the
    failure of a collaborator, and the broker is the first one called. *)
Lemma set_progress_accepted self p w :
  in_unit_interval p = true ->
  exists later,
    trace (set_progress self p w).2 = trace w ++ EGetBroker :: later /\
    ((set_progress self p w).1 = Ok tt \/
     exists code, (set_progress self p w).1 = Raise (ExternalError code)).
Proof.
  intros Hp. unfold set_progress. rewrite Hp. simpl.
  unfold mbind, M_bind, bind, call.
  destruct (ext_failure (ext w) (trace w) EGetBroker) as [c|] eqn:E1; simpl.
  { exists []. eauto. }
  destruct (ext_failure (ext w) (trace w ++ [EGetBroker]) EGetStateBackend)
    as [c|] eqn:E2; simpl.
  { exists [EGetStateBackend]. rewrite <- app_assoc. eauto. }
  match goal with
  | |- context [ext_failure ?e ?t ?ev] => destruct (ext_failure e t ev) as [c|]
  end; simpl; eexists; rewrite <- !app_assoc; simpl; eauto.
Qed.

(** C3: [set_progress] raises [InvalidProgress], carrying the value it was
    given, exactly when the value is not in [0, 1]; the world is then left as
    it was, so neither the broker nor a backend has been called.  A value in
    [0, 1], the bounds 0 and 1 included, is not rejected: the broker is called
    and, when no collaborator fails, the state backend receives the progress
    under the message's id. *)
Theorem set_progress_validates (self : Message) (p : pynum) (w : world) :
  (forall q, in_unit_interval (NReal q) = false <-> ~ (0 <= q /\ q <= 1)%Q) /\
  (forall x, (set_progress self p w).1 = Raise (InvalidProgress x) <->
             in_unit_interval p = false /\ x = p) /\
  (in_unit_interval p = false ->
     set_progress self p w = (Raise (InvalidProgress p), w)) /\
  (in_unit_interval p = true ->
     exists later, trace (set_progress self p w).2 = trace w ++ EGetBroker :: later) /\
  (in_unit_interval p = true ->
     (forall t ev, ext_failure (ext w) t ev = None) ->
     set_progress self p w =
       (Ok tt,
        log_event (ESetState {| state_message_id := message_id self;
                                state_progress := p |})
          (log_event EGetStateBackend (log_event EGetBroker w)))) /\
  in_unit_interval (NReal 0) = true /\
  in_unit_interval (NReal 1) = true.
Proof.
  split; [|split; [|split; [|split; [|split; [|split]]]]].
  - intros q. rewrite <- in_unit_interval_real.
    by destruct (in_unit_interval (NReal q)).
  - intros x. split.
    + intros H. destruct (in_unit_interval p) eqn:E.
      * destruct (set_progress_accepted self p w E) as (? & _ & [H'|[c H']]);
          rewrite H' in H; discriminate.
      * unfold set_progress in H. rewrite E in H. simpl in H.
        split; congruence.
    + intros [E ->]. unfold set_progress. by rewrite E.
  - intros E. unfold set_progress. by rewrite E.
  - intros E. destruct (set_progress_accepted self p w E) as (l & H & _). eauto.
  - intros E Hext. unfold set_progress. rewrite E. simpl.
    unfold mbind, M_bind, bind, call. by rewrite !Hext.
  - done.
  - done.
Qed.

(** ** Pipeline combination *)

(** C8: [a | b] is the pipeline built from the pair [(a, b)], in this
    order; nothing else is done: the world, hence every object the two
    operands refer to, is left as it was. *)
Theorem or_builds_pair_pipeline (a : Message) (b : composition) (w : world) :
  or_ a b w = pipeline [Single a; b] w /\
  or_ a b w = (Ok (Pipeline [Single a; b]), w).
Proof. done. Qed.

(** ** The global encoder *)

Create HintDb encoder discriminated.

Lemma keeps_ret {A} (x : A) : keeps_encoder (mret x).
Proof. by intros w. Qed.

Lemma keeps_raise {A} e : keeps_encoder (@raise A e).
Proof. by intros w. Qed.

Lemma keeps_bind {A B} (c : M A) (k : A -> M B) :
  keeps_encoder c -> (forall x, keeps_encoder (k x)) -> keeps_encoder (c ≫= k).
Proof.
  intros Hc Hk w. unfold mbind, M_bind, bind.
  specialize (Hc w). destruct (c w) as [[x|e] w1]; simpl in *; [|done].
  by rewrite Hk.
Qed.

Lemma keeps_alloc d : keeps_encoder (alloc d).
Proof. by intros w. Qed.

Lemma keeps_setitem obj k v : keeps_encoder (setitem obj k v).
Proof.
  intros w. unfold setitem.
  destruct obj; try done. by destruct (heap_of w !! a).
Qed.

Lemma keeps_call ev : keeps_encoder (call ev).
Proof. intros w. unfold call. by destruct (ext_failure _ _ _). Qed.

Lemma keeps_generate_unique_id : keeps_encoder generate_unique_id.
Proof. by intros w. Qed.

Lemma keeps_now_ms : keeps_encoder now_ms.
Proof. by intros w. Qed.

Lemma keeps_get_encoder : keeps_encoder get_encoder.
Proof. by intros w. Qed.

Lemma keeps_tuple v : keeps_encoder (tuple v).
Proof. intros w. unfold tuple. by destruct (iter_items _ _). Qed.

Lemma keeps_required k kw : keeps_encoder (required k kw).
Proof. unfold required. destruct (dict_get k kw); [apply keeps_ret | apply keeps_raise]. Qed.

Lemma keeps_or_default k kw (c : M pyval) :
  keeps_encoder c -> keeps_encoder (or_default k kw c).
Proof. intros Hc. unfold or_default. destruct (dict_get k kw); [apply keeps_ret | done]. Qed.

#[local] Hint Resolve keeps_ret keeps_raise keeps_alloc keeps_setitem keeps_call
  keeps_generate_unique_id keeps_now_ms keeps_get_encoder keeps_tuple
  keeps_required keeps_or_default : encoder.

Ltac keeps :=
  repeat first
    [ progress eauto with encoder
    | apply keeps_bind; [|intros ?] ].

Lemma keeps_Message_init kw : keeps_encoder (Message_init kw).
Proof.
  unfold Message_init. destruct (unexpected_keyword kw); [apply keeps_raise|].
  keeps.
Qed.

Lemma keeps_Message_from_mapping v : keeps_encoder (Message_from_mapping v).
Proof.
  intros w. unfold Message_from_mapping. destruct v; try done.
  destruct (heap_of w !! a); [apply keeps_Message_init | done].
Qed.

Lemma keeps_encoder_decode data : keeps_encoder (encoder_decode data).
Proof.
  intros w. unfold encoder_decode.
  by destruct (enc_decode _ _ _) as [[v h]|e].
Qed.

Lemma keeps_encoder_encode d : keeps_encoder (encoder_encode d).
Proof. by intros w. Qed.

Lemma keeps_method_copy obj : keeps_encoder (method_copy obj).
Proof.
  intros w. unfold method_copy. destruct obj; try done.
  by destruct (heap_of w !! a).
Qed.

Lemma keeps_update_pairs target items : keeps_encoder (update_pairs target items).
Proof.
  induction items as [|it rest IH]; [apply keeps_ret|].
  intros w. simpl.
  destruct (iter_items (heap_of w) it) as [l|]; [|done].
  destruct l as [|k l]; [done|].
  destruct k, l as [|v [|? ?]]; try done.
  exact (keeps_bind _ _ (keeps_setitem _ _ _) (fun _ => IH) w).
Qed.

Lemma keeps_method_update target other : keeps_encoder (method_update target other).
Proof.
  intros w. unfold method_update. destruct target; try done.
  destruct (heap_of w !! a); [|done].
  destruct other; simpl; try done;
    try (destruct (iter_items _ _); [apply keeps_update_pairs | done]);
    try apply keeps_update_pairs.
  by destruct (heap_of w !! a0).
Qed.

#[local] Hint Resolve keeps_Message_init keeps_Message_from_mapping
  keeps_encoder_decode keeps_encoder_encode keeps_method_copy
  keeps_method_update : encoder.

Lemma keeps_copy self attributes : keeps_encoder (copy self attributes).
Proof. unfold copy, evolve. keeps. Qed.

Lemma keeps_cancel self : keeps_encoder (cancel self).
Proof. unfold cancel. keeps. Qed.

Lemma keeps_set_progress self p : keeps_encoder (set_progress self p).
Proof. unfold set_progress. destruct (negb _); keeps. Qed.

(** Only [set_encoder] changes the global encoder. *)
Lemma step_keeps_encoder o w :
  is_set_encoder o = false -> global_encoder (step o w) = global_encoder w.
Proof.
  destruct o; simpl; intros H; try discriminate.
  - done.
  - done.
  - apply keeps_setitem.
  - apply keeps_Message_init.
  - done.
  - unfold decode. revert w. fold (keeps_encoder (encoder_decode data ≫= Message_from_mapping)). keeps.
  - unfold encode, asdict. revert w.
    fold (keeps_encoder (alloc (fields m) ≫= encoder_encode)). keeps.
  - apply keeps_copy.
  - apply keeps_copy.
  - done.
  - apply keeps_cancel.
  - apply keeps_set_progress.
Qed.

Lemma run_keeps_encoder prog w :
  forallb (fun o => negb (is_set_encoder o)) prog = true ->
  global_encoder (run prog w) = global_encoder w.
Proof.
  unfold run. revert w.
  induction prog as [|o prog IH]; intros w H; simpl in *; [done|].
  apply andb_true_iff in H as [Ho H].
  rewrite IH by done. apply step_keeps_encoder. by destruct (is_set_encoder o).
Qed.

(** C7: after [set_encoder e], and whatever the program does next short of
    calling [set_encoder] again, [get_encoder] returns [e] and [encode] and
    [decode] are the encoding and the decoding with [e], for every message:
    the encoder is read from the global at each call and a message holds
    none. *)
Theorem encoder_swap (e : Encoder) (prog : list op) (w : world) :
  forallb (fun o => negb (is_set_encoder o)) prog = true ->
  let w' := run prog (set_encoder e w).2 in
  get_encoder w' = (Ok e, w') /\
  (forall m, encode m w' = encode_with e m w') /\
  (forall data, decode data w' = decode_with e data w').
Proof.
  intros Hprog w'.
  assert (He : global_encoder w' = e).
  { unfold w'. by rewrite run_keeps_encoder. }
  split; [|split].
  - unfold get_encoder. by rewrite He.
  - intros m. unfold encode, encode_with, encoder_encode, asdict.
    unfold mbind, M_bind, bind, alloc. simpl. by rewrite He.
  - intros data. unfold decode, decode_with, encoder_decode.
    unfold mbind, M_bind, bind. rewrite He.
    by destruct (enc_decode e (heap_of w') data) as [[v h]|x].
Qed.

(** ** Construction *)

Lemma is_field_name k :
  existsb (String.eqb k) field_names = true <-> k ∈ field_names.
Proof.
  rewrite existsb_exists, list_elem_of_In. split.
  - intros (x & Hx & E). by apply String.eqb_eq in E as ->.
  - intros H. exists k. by rewrite String.eqb_refl.
Qed.

Lemma unexpected_keyword_None kw :
  unexpected_keyword kw = None <-> forall k, k ∈ dict_keys kw -> k ∈ field_names.
Proof.
  unfold unexpected_keyword. split.
  - intros H k Hk. apply list_elem_of_In in Hk.
    pose proof (find_none _ _ H k Hk) as Hf. simpl in Hf.
    apply negb_false_iff in Hf. by apply is_field_name.
  - intros H. destruct (find _ _) as [k|] eqn:E; [|done].
    apply find_some in E as [Hk Hf]. apply list_elem_of_In in Hk.
    apply H, is_field_name in Hk. by rewrite Hk in Hf.
Qed.

Lemma unexpected_keyword_Some kw k :
  k ∈ dict_keys kw -> k ∉ field_names -> exists k', unexpected_keyword kw = Some k'.
Proof.
  intros Hk Hn. destruct (unexpected_keyword kw) as [k'|] eqn:E; [eauto|].
  exfalso. apply Hn. by eapply unexpected_keyword_None.
Qed.

Lemma binds_fields_true kw :
  binds_fields kw = true ->
  unexpected_keyword kw = None /\
  exists q a ar kws opts,
    dict_get "queue_name" kw = Some q /\ dict_get "actor_name" kw = Some a /\
    dict_get "args" kw = Some ar /\ dict_get "kwargs" kw = Some kws /\
    dict_get "options" kw = Some opts.
Proof.
  unfold binds_fields. destruct (unexpected_keyword kw); [done|].
  simpl. intros H. split; [done|].
  destruct (dict_get "queue_name" kw) as [q|]; [|done].
  destruct (dict_get "actor_name" kw) as [a|]; [|done].
  destruct (dict_get "args" kw) as [ar|]; [|done].
  destruct (dict_get "kwargs" kw) as [kws|]; [|done].
  destruct (dict_get "options" kw) as [opts|]; [|done].
  by exists q, a, ar, kws, opts.
Qed.

(** The call of the class when its parameters are bound and [args] can be
    iterated. *)
Lemma Message_init_ok kw w q a ar kws opts items :
  unexpected_keyword kw = None ->
  dict_get "queue_name" kw = Some q -> dict_get "actor_name" kw = Some a ->
  dict_get "args" kw = Some ar -> dict_get "kwargs" kw = Some kws ->
  dict_get "options" kw = Some opts ->
  iter_items (heap_of w) ar = Some items ->
  Message_init kw w =
    (Ok {| queue_name := q; actor_name := a; args := items; kwargs := kws;
           options := opts;
           message_id :=
             default (VStr (unique_id_at (ext w) (uid_draws w)))
                     (dict_get "message_id" kw);
           message_timestamp :=
             default (VInt (time_ms_at (ext w) (clock_reads w)))
                     (dict_get "message_timestamp" kw) |},
     after_init kw w).
Proof.
  intros Hu Hq Ha Har Hkws Hopts Hit.
  unfold Message_init, required, or_default, after_init. rewrite Hu, Hq, Ha, Har, Hkws, Hopts.
  unfold mbind, M_bind, bind, mret, M_ret, ret, tuple. simpl. rewrite Hit.
  destruct (dict_get "message_id" kw), (dict_get "message_timestamp" kw);
    simpl; try done; by destruct w.
Qed.

(** The call of the class fails, and changes nothing, when a keyword is not
    a field or a field without default is not given. *)
Lemma Message_init_unbound kw w :
  binds_fields kw = false -> exists msg, Message_init kw w = (Raise (TypeError msg), w).
Proof.
  unfold binds_fields, Message_init, required.
  destruct (unexpected_keyword kw); [by eauto|]. simpl.
  unfold mbind, M_bind, bind, mret, M_ret, ret, raise.
  destruct (dict_get "queue_name" kw); [|by eauto].
  destruct (dict_get "actor_name" kw); [|by eauto].
  destruct (dict_get "args" kw); [|by eauto].
  destruct (dict_get "kwargs" kw); [|by eauto].
  destruct (dict_get "options" kw); [|by eauto].
  done.
Qed.

Lemma missing_required_unbound kw k :
  k ∈ required_names -> dict_get k kw = None -> binds_fields kw = false.
Proof.
  intros Hk Hget. unfold binds_fields.
  destruct (unexpected_keyword kw); [done|].
  apply not_true_iff_false. intros H.
  rewrite forallb_forall in H. apply list_elem_of_In in Hk.
  specialize (H k Hk). by rewrite Hget in H.
Qed.

(** C6: whatever ordered input is given as [args] (a list, a tuple or any
    other iterable), the message that is constructed holds as [args] the
    tuple of its items, in the order of the input; a list and a tuple of the
    same items give the same tuple. *)
Theorem args_normalised (kw : dict) (w : world) (ar : pyval) (items : list pyval) :
  binds_fields kw = true ->
  dict_get "args" kw = Some ar ->
  iter_items (heap_of w) ar = Some items ->
  (exists m, Message_init kw w = (Ok m, after_init kw w) /\
             args m = items /\
             dict_get "args" (fields m) = Some (VTuple items)) /\
  (forall l, ar = VList l \/ ar = VTuple l -> items = l).
Proof.
  intros Hb Har Hit. split.
  - apply binds_fields_true in Hb as (Hu & q & a & ar' & kws & opts & Hq & Ha & Har' & Hkws & Hopts).
    assert (ar' = ar) as -> by congruence.
    eexists. split; [by eapply Message_init_ok|]. done.
  - intros l [-> | ->]; simpl in Hit; congruence.
Qed.

(** ** Decoding *)

Lemma decode_mapping data w a h kw :
  enc_decode (global_encoder w) (heap_of w) data = Ok (VDict a, h) ->
  h !! a = Some kw ->
  decode data w = Message_init kw (with_heap h w).
Proof.
  intros Hdec Hkw. unfold decode, encoder_decode, mbind, M_bind, bind.
  rewrite Hdec. unfold Message_from_mapping. simpl. by rewrite Hkw.
Qed.

(** C10: let the encoder decode the payload to a mapping [kw].  If [kw] has
    a key that is not one of the seven field names, or lacks one of
    [queue_name], [actor_name], [args], [kwargs], [options], then [decode]
    raises [TypeError] and no message is constructed.  If [kw] has only field
    names as keys and the five required ones among them, [decode] succeeds
    even without [message_id] or [message_timestamp]: a missing id is the
    next draw of the identity generator and a missing timestamp the next
    reading of the clock.  The only other failure is that of the converter
    of [args], when the value decoded for [args] is not a sequence. *)
Theorem decode_checks_fields (data : bytes) (w : world) (a : nat)
    (h : gmap nat dict) (kw : dict) :
  enc_decode (global_encoder w) (heap_of w) data = Ok (VDict a, h) ->
  h !! a = Some kw ->
  ((exists k, k ∈ dict_keys kw /\ k ∉ field_names) ->
   exists msg, decode data w = (Raise (TypeError msg), with_heap h w)) /\
  ((exists k, k ∈ required_names /\ dict_get k kw = None) ->
   exists msg, decode data w = (Raise (TypeError msg), with_heap h w)) /\
  (binds_fields kw = true ->
   (forall ar, dict_get "args" kw = Some ar -> is_Some (iter_items h ar)) ->
   exists m,
     decode data w = (Ok m, after_init kw (with_heap h w)) /\
     dict_get "queue_name" kw = Some (queue_name m) /\
     dict_get "actor_name" kw = Some (actor_name m) /\
     dict_get "kwargs" kw = Some (kwargs m) /\
     dict_get "options" kw = Some (options m) /\
     (dict_get "args" kw ≫= iter_items h) = Some (args m) /\
     message_id m =
       default (VStr (unique_id_at (ext w) (uid_draws w))) (dict_get "message_id" kw) /\
     message_timestamp m =
       default (VInt (time_ms_at (ext w) (clock_reads w)))
               (dict_get "message_timestamp" kw) /\
     (dict_get "message_id" kw = None ->
      uid_draws (after_init kw (with_heap h w)) = S (uid_draws w)) /\
     (dict_get "message_timestamp" kw = None ->
      clock_reads (after_init kw (with_heap h w)) = S (clock_reads w))) /\
  (binds_fields kw = true ->
   (exists ar, dict_get "args" kw = Some ar /\ iter_items h ar = None) ->
   exists msg, decode data w = (Raise (TypeError msg), with_heap h w)).
Proof.
  intros Hdec Hkw. rewrite (decode_mapping _ _ _ _ _ Hdec Hkw).
  split; [|split; [|split]]; cycle 3.
  { intros Hb (ar & Har & Hit).
    apply binds_fields_true in Hb
      as (Hu & q & an & ar' & kws & opts & Hq & Ha & Har' & Hkws & Hopts).
    assert (ar' = ar) as -> by congruence.
    unfold Message_init, required. rewrite Hu, Hq, Ha, Har, Hkws, Hopts.
    unfold mbind, M_bind, bind, mret, M_ret, ret, tuple. simpl. rewrite Hit.
    by eauto. }
  - intros (k & Hk & Hn). apply Message_init_unbound.
    unfold binds_fields.
    by destruct (unexpected_keyword_Some _ _ Hk Hn) as [k' ->].
  - intros (k & Hk & Hget). apply Message_init_unbound.
    by eapply missing_required_unbound.
  - intros Hb Hargs.
    apply binds_fields_true in Hb
      as (Hu & q & an & ar & kws & opts & Hq & Ha & Har & Hkws & Hopts).
    destruct (Hargs ar Har) as [items Hit].
    eexists. split; [by eapply (Message_init_ok kw (with_heap h w))|].
    simpl. rewrite Har. simpl.
    repeat split; try done.
    + intros ->. done.
    + intros ->. done.
Qed.

(** ** Copies *)

(** The keyword arguments [evolve] calls the class with: the changes, and
    the value held by the instance for every field they leave out. *)
Lemma evolve_changes_get (items ch : dict) k :
  dict_get k
    (fold_left (fun ch kv => match dict_get kv.1 ch with
                             | Some _ => ch
                             | None => dict_set kv.1 kv.2 ch
                             end) items ch) =
  match dict_get k ch with Some v => Some v | None => dict_get k items end.
Proof.
  revert ch. induction items as [|[k0 v0] items IH]; intros ch; simpl.
  - by destruct (dict_get k ch).
  - rewrite IH. destruct (dict_get k0 ch) as [v|] eqn:E0.
    + destruct (dict_get k ch) eqn:E; [done|].
      destruct (String.eqb k k0) eqn:Ek; [|done].
      apply String.eqb_eq in Ek as ->. congruence.
    + rewrite dict_get_set.
      destruct (String.eqb k k0) eqn:Ek.
      * apply String.eqb_eq in Ek as ->. by rewrite E0.
      * done.
Qed.

Lemma iter_items_weaken (h h' : gmap nat dict) v l :
  h ⊆ h' -> iter_items h v = Some l -> iter_items h' v = Some l.
Proof.
  intros Hsub. destruct v; simpl; try done.
  destruct (h !! a) as [d|] eqn:E; [|done].
  by rewrite (lookup_weaken _ _ _ _ E Hsub).
Qed.

Lemma fresh_not_allocated (h : gmap nat dict) a d :
  h !! a = Some d -> a <> fresh (dom h).
Proof.
  intros H ->. apply (is_fresh (dom h)). apply elem_of_dom. eauto.
Qed.

Lemma alloc_extends (h : gmap nat dict) d : h ⊆ <[fresh (dom h) := d]> h.
Proof. apply insert_subseteq, not_elem_of_dom, is_fresh. Qed.

(** [evolve] succeeds when the changes name fields only and the new [args]
    can be iterated; it changes nothing in the world. *)
Lemma evolve_spec inst changes w items :
  unexpected_keyword changes = None ->
  iter_items (heap_of w) (default (VTuple (args inst)) (dict_get "args" changes))
    = Some items ->
  evolve inst changes w = (Ok (evolved inst changes items), w).
Proof.
  intros Hu Hit. unfold evolve.
  set (filled := fold_left _ _ _).
  assert (Hget : forall k, dict_get k filled =
            match dict_get k changes with
            | Some v => Some v
            | None => dict_get k (fields inst)
            end) by (intros k; apply evolve_changes_get).
  assert (Hu' : unexpected_keyword filled = None).
  { apply unexpected_keyword_None. intros k Hk.
    destruct (dict_get k filled) as [v|] eqn:E.
    - rewrite Hget in E. destruct (dict_get k changes) eqn:Ec.
      + eapply unexpected_keyword_None; [exact Hu|]. by eapply dict_get_Some_key.
      + by apply dict_get_Some_key in E.
    - by apply dict_get_None in E. }
  assert (Hf : forall k v, dict_get k (fields inst) = Some v ->
            dict_get k filled = Some (default v (dict_get k changes))).
  { intros k v Hk. rewrite Hget, Hk. by destruct (dict_get k changes). }
  rewrite (Message_init_ok filled w
             (default (queue_name inst) (dict_get "queue_name" changes))
             (default (actor_name inst) (dict_get "actor_name" changes))
             (default (VTuple (args inst)) (dict_get "args" changes))
             (default (kwargs inst) (dict_get "kwargs" changes))
             (default (options inst) (dict_get "options" changes))
             items); try done; try by apply Hf.
  unfold after_init, evolved.
  rewrite (Hf "message_id" (message_id inst)), (Hf "message_timestamp" (message_timestamp inst)) by done.
  simpl. by destruct w.
Qed.

Lemma copied_evolved self attributes items new_options :
  evolved self (dict_set "options" new_options (dict_remove "options" attributes)) items
  = copied self attributes items new_options.
Proof.
  unfold evolved, copied. by rewrite !dict_get_set, !dict_get_remove.
Qed.

Lemma py_eq_contents (h : gmap nat dict) a a' d :
  h !! a = Some d -> h !! a' = Some d -> py_eq h (VDict a) (VDict a').
Proof.
  intros H H'. eapply py_eq_dict; [done..|].
  intros k. destruct (dict_get k d); constructor. apply py_eq_same.
Qed.

Lemma heap_after_copy_extends (h : gmap nat dict) merged :
  h ⊆ heap_after_copy h merged.
Proof. etrans; [apply alloc_extends|]. apply alloc_extends. Qed.

Lemma heap_after_copy_new (h : gmap nat dict) merged :
  heap_after_copy h merged !! new_options_addr h = Some merged.
Proof. apply lookup_insert_eq. Qed.

Section Copies.

(** A message whose options are the dict [d], and overrides that [copy]
    accepts: they name fields only, the override of [options], if any, is a
    dict of contents [o] (the empty dict stands for no override), and the
    [args] of the copy can be iterated, giving [items]. *)
Variables (self : Message) (attributes : dict) (w : world).
Variables (a : nat) (d o : dict) (items : list pyval).
Hypothesis options_allocated : options self = VDict a.
Hypothesis options_contents : heap_of w !! a = Some d.
Hypothesis override_allocated : override_contents (heap_of w) attributes = Some o.
Hypothesis overrides_are_fields : unexpected_keyword attributes = None.
Hypothesis args_iterable :
  iter_items (heap_of w) (default (VTuple (args self)) (dict_get "args" attributes))
    = Some items.

Lemma copy_spec :
  copy self attributes w =
    (Ok (copied self attributes items (VDict (new_options_addr (heap_of w)))),
     with_heap (heap_after_copy (heap_of w) (dict_update d o)) w).
Proof.
  set (h := heap_of w) in *.
  set (a0 := fresh (dom h)).
  set (h1 := <[a0 := []]> h).
  set (a1 := fresh (dom h1)).
  assert (Hsub1 : h ⊆ h1) by apply alloc_extends.
  assert (Hd1 : h1 !! a = Some d) by (by eapply lookup_weaken).
  unfold copy.
  rewrite (bind_Ok _ _ w (VDict a0) (with_heap h1 w)) by done.
  rewrite options_allocated.
  rewrite (bind_Ok _ _ _ (VDict a1) (with_heap (<[a1 := d]> h1) w)).
  2:{ unfold method_copy. simpl. fold h. fold a0. fold h1. by rewrite Hd1. }
  set (h2 := <[a1 := d]> h1).
  assert (Hsub2 : h1 ⊆ h2) by apply alloc_extends.
  assert (Hupd : exists b, default (VDict a0) (dict_get "options" attributes) = VDict b
                           /\ h2 !! b = Some o).
  { pose proof override_allocated as Ho. unfold override_contents in Ho.
    destruct (dict_get "options" attributes) as [v|]; simpl.
    - destruct v as [| | | | | |b]; try done. exists b. split; [done|].
      eapply lookup_weaken; [|exact Hsub2]. by eapply lookup_weaken.
    - exists a0. split; [done|]. injection Ho as <-.
      eapply lookup_weaken; [|exact Hsub2]. apply lookup_insert_eq. }
  destruct Hupd as (b & -> & Hb).
  rewrite (bind_Ok _ _ _ tt (with_heap (<[a1 := dict_update d o]> h2) w)).
  2:{ unfold method_update. simpl. fold h2.
      rewrite (lookup_insert_eq h1 a1 d : h2 !! a1 = Some d). by rewrite Hb. }
  unfold h2. rewrite insert_insert_eq.
  fold (new_options_addr h) in a1. fold a1.
  change (<[a1:=dict_update d o]> h1) with (heap_after_copy h (dict_update d o)).
  rewrite (evolve_spec _ _ _ items).
  - by rewrite copied_evolved.
  - apply unexpected_keyword_None. intros k Hk.
    destruct (dict_get k (dict_set "options" (VDict a1) (dict_remove "options" attributes)))
      as [v|] eqn:E; [|by apply dict_get_None in E].
    rewrite dict_get_set, dict_get_remove in E.
    destruct (String.eqb k "options") eqn:Ek.
    + apply String.eqb_eq in Ek as ->. by apply is_field_name.
    + eapply unexpected_keyword_None; [exact overrides_are_fields|].
      by eapply dict_get_Some_key.
  - rewrite dict_get_set, dict_get_remove. simpl.
    eapply iter_items_weaken; [apply heap_after_copy_extends | exact args_iterable].
Qed.

(** C2: the options of a copy are a new dict holding the options of the
    message updated with the override: a key of the override has the value
    the override gives it, every other key keeps the value it has in the
    options of the message.  Without an override for [options] the new dict
    has the contents of the message's options, to which it is equal.  The
    options of the message itself are left as they were. *)
Theorem copy_merges_options :
  NoDup (dict_keys o) ->
  exists m' w',
    copy self attributes w = (Ok m', w') /\
    contents (heap_of w') (options m') = Some (dict_update d o) /\
    (forall k, dict_get k (dict_update d o) =
               match dict_get k o with Some v => Some v | None => dict_get k d end) /\
    (dict_get "options" attributes = None ->
       contents (heap_of w') (options m') = Some d /\
       py_eq (heap_of w') (options self) (options m')) /\
    contents (heap_of w') (options self) = Some d.
Proof.
  intros Hnd.
  eexists _, _. split; [exact copy_spec|]. simpl.
  pose proof (heap_after_copy_extends (heap_of w) (dict_update d o)) as Hsub.
  pose proof (heap_after_copy_new (heap_of w) (dict_update d o)) as Hnew.
  assert (Hold : heap_after_copy (heap_of w) (dict_update d o) !! a = Some d)
    by (by eapply lookup_weaken).
  split; [done|]. split; [intros k; by apply dict_get_update|].
  rewrite options_allocated. split; [|done].
  intros Hno. pose proof override_allocated as Ho.
  unfold override_contents in Ho. rewrite Hno in Ho.
  injection Ho as <-. rewrite dict_update_nil in *.
  split; [done|]. by eapply py_eq_contents.
Qed.

(** C5: a copy whose overrides name neither [message_id] nor
    [message_timestamp] has the id and the timestamp of the message, and
    every field that is not overridden has the value it has in the message:
    the same object for [queue_name], [actor_name], [args] and [kwargs], an
    equal dict for [options].  The objects of the message are left as they
    were, no identifier is drawn and the clock is not read. *)
Theorem copy_preserves_identity :
  dict_get "message_id" attributes = None ->
  dict_get "message_timestamp" attributes = None ->
  exists m' w',
    copy self attributes w = (Ok m', w') /\
    message_id m' = message_id self /\
    message_timestamp m' = message_timestamp self /\
    (dict_get "queue_name" attributes = None -> queue_name m' = queue_name self) /\
    (dict_get "actor_name" attributes = None -> actor_name m' = actor_name self) /\
    (dict_get "args" attributes = None -> args m' = args self) /\
    (dict_get "kwargs" attributes = None -> kwargs m' = kwargs self) /\
    (dict_get "options" attributes = None ->
       py_eq (heap_of w') (options self) (options m')) /\
    heap_of w ⊆ heap_of w' /\
    uid_draws w' = uid_draws w /\ clock_reads w' = clock_reads w.
Proof.
  intros Hid Hts.
  eexists _, _. split; [exact copy_spec|]. simpl.
  pose proof (heap_after_copy_extends (heap_of w) (dict_update d o)) as Hsub.
  rewrite Hid, Hts. simpl.
  repeat split; try done; try (by intros ->).
  - intros Har. pose proof args_iterable as Hit.
    rewrite Har in Hit. simpl in Hit. congruence.
  - intros Hno. pose proof override_allocated as Ho.
    unfold override_contents in Ho. rewrite Hno in Ho.
    injection Ho as <-. rewrite options_allocated.
    eapply py_eq_contents; [by eapply lookup_weaken|].
    apply heap_after_copy_new.
Qed.

End Copies.

(** C9: [build] with the options [o] is [copy] with [o] as its only
    override: the two calls give the same message and the same world, and
    the options of the message built are those of the message updated
    with [o], every other field being kept. *)
Theorem build_is_copy_of_options (self : Message) (o : pyval) (w : world)
    (a b : nat) (d od : dict) :
  options self = VDict a ->
  heap_of w !! a = Some d ->
  o = VDict b ->
  heap_of w !! b = Some od ->
  build self o w = copy self [("options", o)] w /\
  exists m' w',
    build self o w = (Ok m', w') /\
    contents (heap_of w') (options m') = Some (dict_update d od) /\
    queue_name m' = queue_name self /\ actor_name m' = actor_name self /\
    args m' = args self /\ kwargs m' = kwargs self /\
    message_id m' = message_id self /\
    message_timestamp m' = message_timestamp self.
Proof.
  intros Hopt Hd -> Hb. split; [done|].
  unfold build.
  eexists _, _. split.
  - eapply (copy_spec self _ w a d od (args self)); try done.
  - simpl. split; [apply heap_after_copy_new|done].
Qed.

(** ** Round trip *)

Lemma pointwise_Some {R : string -> pyval -> pyval -> Prop} (d d' : dict) k x :
  (forall k, option_Forall2 (R k) (dict_get k d) (dict_get k d')) ->
  dict_get k d = Some x ->
  exists x', dict_get k d' = Some x' /\ R k x x'.
Proof.
  intros Hall Hk. specialize (Hall k). rewrite Hk in Hall.
  inversion Hall; subst. eauto.
Qed.

Lemma py_eq_dict_inv (h : gmap nat dict) a d v :
  h !! a = Some d ->
  py_eq h (VDict a) v ->
  exists a' d', v = VDict a' /\ h !! a' = Some d' /\
    forall k, option_Forall2 (py_eq h) (dict_get k d) (dict_get k d').
Proof.
  intros Hd Heq. inversion Heq as [| | | | |? a' d0 d' Hd0 Hd' Hall]; subst.
  - exists a, d. repeat split; try done.
    intros k. destruct (dict_get k d); constructor. apply py_eq_same.
  - exists a', d'. rewrite Hd in Hd0. injection Hd0 as <-. done.
Qed.

Lemma py_eq_refl_items (h : gmap nat dict) (l : list pyval) : Forall2 (py_eq h) l l.
Proof. induction l; constructor; [apply py_eq_same | done]. Qed.

(** Equal sequences of the same type are the same sequence. *)
Lemma py_eq_same_sequence (h : gmap nat dict) v v' l :
  sequence_items v = Some l -> py_eq h v v' -> same_sequence h v v'.
Proof.
  intros Hl Heq. inversion Heq; subst; simpl in Hl; try done.
  - exists l, l. repeat split; try done. apply py_eq_refl_items.
  - injection Hl as <-. by eexists _, _.
  - injection Hl as <-. by eexists _, _.
Qed.

(** An encoder that gives back a mapping equal to the one it is given, its
    [args] a sequence as they were, meets the contract: the contract asks
    for no more than value equality. *)
Lemma round_trips_of_py_eq (e : Encoder) (h h' : gmap nat dict) a fs l data v :
  h !! a = Some fs ->
  (dict_get "args" fs ≫= sequence_items) = Some l ->
  enc_encode e h (VDict a) = Ok data ->
  enc_decode e h data = Ok (v, h') ->
  h ⊆ h' ->
  py_eq h' (VDict a) v ->
  round_trips e h (VDict a).
Proof.
  intros Hfs Hargs Henc Hdec Hsub Heq.
  exists data, v, h'. repeat split; try done.
  assert (Hfs' : h' !! a = Some fs) by (by eapply lookup_weaken).
  destruct (py_eq_dict_inv _ _ _ _ Hfs' Heq) as (a' & fs' & -> & Hfs'' & Hall).
  exists a, a', fs, fs'. repeat split; try done.
  intros k. specialize (Hall k). unfold field_eq.
  destruct (String.eqb_spec k "args") as [->|_]; [|done].
  destruct (dict_get "args" fs) as [x|] eqn:Ex; [|done]. simpl in Hargs.
  inversion Hall as [? x' Hx|]; subst. constructor.
  by eapply py_eq_same_sequence.
Qed.

(** C1: let the encoder in place satisfy its round-trip contract at the
    mapping of the fields of a message: the mapping it decodes has the same
    keys and equal fields, its [args] written as a list or as a tuple.  Then
    encoding the message and decoding the payload succeeds and constructs a
    message whose seven fields are equal to those of the message it comes
    from, [args] being made a tuple again by its converter; no identifier is
    drawn and the clock is not read. *)
Theorem decode_encode_round_trip (self : Message) (w w1 : world) (d : pyval) :
  asdict self w = (Ok d, w1) ->
  round_trips (global_encoder w) (heap_of w1) d ->
  exists data m' w2,
    encode self w = (Ok data, w1) /\
    decode data w1 = (Ok m', w2) /\
    Message_eq (heap_of w2) self m' /\
    uid_draws w2 = uid_draws w /\ clock_reads w2 = clock_reads w.
Proof.
  intros Has (data & v & h2 & Henc & Hdec & Hsub & Heq).
  unfold asdict, alloc in Has. injection Has as <- <-.
  set (a0 := fresh (dom (heap_of w))) in *.
  set (w1 := with_heap _ w) in *.
  assert (Hf : h2 !! a0 = Some (fields self)).
  { eapply lookup_weaken; [|exact Hsub]. apply lookup_insert_eq. }
  destruct Heq as (a & a' & fs & kw & Ha & -> & Hfs & Hkw & Hall).
  injection Ha as <-. rewrite Hf in Hfs. injection Hfs as <-.
  destruct (pointwise_Some _ _ "queue_name" _ Hall eq_refl) as (q & Hq & Eq).
  destruct (pointwise_Some _ _ "actor_name" _ Hall eq_refl) as (an & Han & Ean).
  destruct (pointwise_Some _ _ "args" _ Hall eq_refl) as (ar & Har & Ear).
  destruct (pointwise_Some _ _ "kwargs" _ Hall eq_refl) as (kws & Hkws & Ekws).
  destruct (pointwise_Some _ _ "options" _ Hall eq_refl) as (opts & Hopts & Eopts).
  destruct (pointwise_Some _ _ "message_id" _ Hall eq_refl) as (mid & Hmid & Emid).
  destruct (pointwise_Some _ _ "message_timestamp" _ Hall eq_refl) as (ts & Hts & Ets).
  destruct Ear as (l & items & Hl & Hitems & Eitems).
  injection Hl as <-.
  assert (Hit : iter_items h2 ar = Some items).
  { by destruct ar. }
  assert (Hu : unexpected_keyword kw = None).
  { apply unexpected_keyword_None. intros k Hk.
    destruct (dict_get k (fields self)) as [x|] eqn:E.
    - by apply dict_get_Some_key in E.
    - specialize (Hall k). rewrite E in Hall.
      destruct (dict_get k kw) eqn:E'; [inversion Hall|].
      by apply dict_get_None in E'. }
  exists data. eexists _, _. split; [|split].
  - unfold encode, asdict. erewrite bind_Ok by done. unfold encoder_encode.
    by rewrite <- Henc.
  - erewrite (decode_mapping data w1 a' h2 kw) by done.
    by eapply (Message_init_ok kw (with_heap h2 w1)).
  - unfold after_init. rewrite Hmid, Hts. simpl.
    repeat split; try done. by apply py_eq_tuple.
Qed.

(** ** Sharing of the mappings *)

(** C4, as the code has it: the class makes no copy of the mappings it is
    given.  The [kwargs] and [options] of the message are the caller's own
    dict objects and construction allocates nothing, so an item the caller
    assigns in one of its mappings after construction is seen through the
    field of the message, and an item assigned through a field of the
    message is seen in the caller's mapping. *)
Theorem construction_shares_mappings (kw : dict) (w : world)
    (caller_kwargs caller_options : pyval) (ak ao : nat) (dk dopt : dict) :
  binds_fields kw = true ->
  (forall ar, dict_get "args" kw = Some ar -> is_Some (iter_items (heap_of w) ar)) ->
  dict_get "kwargs" kw = Some caller_kwargs ->
  dict_get "options" kw = Some caller_options ->
  caller_kwargs = VDict ak -> heap_of w !! ak = Some dk ->
  caller_options = VDict ao -> heap_of w !! ao = Some dopt ->
  exists m w1,
    Message_init kw w = (Ok m, w1) /\
    kwargs m = caller_kwargs /\ options m = caller_options /\
    heap_of w1 = heap_of w /\
    (forall k v,
       contents (heap_of (setitem caller_kwargs k v w1).2) (kwargs m)
         = Some (dict_set k v dk)) /\
    (forall k v,
       contents (heap_of (setitem caller_options k v w1).2) (options m)
         = Some (dict_set k v dopt)) /\
    (forall k v,
       contents (heap_of (setitem (kwargs m) k v w1).2) caller_kwargs
         = Some (dict_set k v dk)) /\
    (forall k v,
       contents (heap_of (setitem (options m) k v w1).2) caller_options
         = Some (dict_set k v dopt)).
Proof.
  intros Hb Hargs Hk Ho -> Hdk -> Hdo.
  apply binds_fields_true in Hb
    as (Hu & q & an & ar & kws & opts & Hq & Ha & Har & Hkws & Hopts).
  destruct (Hargs ar Har) as [items Hit].
  assert (kws = VDict ak) as -> by congruence.
  assert (opts = VDict ao) as -> by congruence.
  eexists _, _. split; [by eapply Message_init_ok|]. simpl.
  do 3 (split; [done|]).
  repeat split; intros k v; rewrite ?Hdk, ?Hdo; simpl; apply lookup_insert_eq.
Qed.

(** * Instances on the sample world *)

Lemma dict_pointwise {R : pyval -> pyval -> Prop} (d d' : dict) :
  Forall2 (fun kv kv' => kv.1 = kv'.1 /\ R kv.2 kv'.2) d d' ->
  forall k, option_Forall2 R (dict_get k d) (dict_get k d').
Proof.
  induction 1 as [|[k0 v0] [k0' v0'] d d' [Hk Hv] _ IH]; intros k; simpl.
  - constructor.
  - simpl in Hk, Hv. subst k0'.
    destruct (String.eqb k k0); [by constructor | apply IH].
Qed.

Lemma heap_included_by_computation (h h' : gmap nat dict) :
  bool_decide (map_Forall (fun i x => h' !! i = Some x) h) = true -> h ⊆ h'.
Proof.
  intros H. apply map_subseteq_spec. exact (bool_decide_eq_true_1 _ H).
Qed.

Lemma dict_fieldwise (h : gmap nat dict) (d d' : dict) :
  Forall2 (fun kv kv' => kv.1 = kv'.1 /\ field_eq h kv.1 kv.2 kv'.2) d d' ->
  forall k, option_Forall2 (field_eq h k) (dict_get k d) (dict_get k d').
Proof.
  induction 1 as [|[k0 v0] [k0' v0'] d d' [Hk Hv] _ IH]; intros k; simpl.
  - constructor.
  - simpl in Hk, Hv. subst k0'.
    destruct (String.eqb_spec k k0) as [->|_]; [by constructor | apply IH].
Qed.

(** The contract at a concrete mapping: the encoder is run, and the decoded
    mapping is compared field by field. *)
Ltac run_round_trip :=
  eexists _, _, _; split; [vm_compute; reflexivity|];
  split; [vm_compute; reflexivity|];
  split; [apply heap_included_by_computation; vm_compute; reflexivity|];
  eexists _, _, _, _; split; [reflexivity|]; split; [reflexivity|];
  split; [vm_compute; reflexivity|]; split; [vm_compute; reflexivity|];
  apply dict_fieldwise;
  repeat (apply List.Forall2_cons; [split; [reflexivity|]|]);
    [ unfold field_eq; simpl;
      first [ apply py_eq_same
            | eapply py_eq_contents; vm_compute; reflexivity
            | eexists _, _; split; [reflexivity|]; split; [reflexivity|];
              apply py_eq_refl_items ] ..
    | apply List.Forall2_nil ].

(** The sample message survives the round trip through [ListEncoder], which
    gives its [args] back as the list [[1, 2, 3]], and through
    [TaggedEncoder], which gives them back as a tuple. *)
Lemma decode_encode_round_trip_witness :
  (asdict sample_message list_world
     = (Ok (VDict 3), with_heap (<[3%nat := fields sample_message]> (heap_of list_world))
                                list_world) /\
   round_trips (global_encoder list_world)
     (<[3%nat := fields sample_message]> (heap_of list_world)) (VDict 3) /\
   (exists h', enc_encode ListEncoder
                 (<[3%nat := fields sample_message]> (heap_of list_world))
                 (VDict 3) = Ok sample_list_payload /\
               enc_decode ListEncoder
                 (<[3%nat := fields sample_message]> (heap_of list_world))
                 sample_list_payload = Ok (VDict 6, h') /\
               (h' !! 6%nat ≫= dict_get "args") = Some (VList [VInt 1; VInt 2; VInt 3])) /\
   exists data m' w2,
     encode sample_message list_world
       = (Ok data, with_heap (<[3%nat := fields sample_message]> (heap_of list_world))
                             list_world) /\
     decode data (with_heap (<[3%nat := fields sample_message]> (heap_of list_world))
                            list_world) = (Ok m', w2) /\
     Message_eq (heap_of w2) sample_message m' /\
     uid_draws w2 = uid_draws list_world /\ clock_reads w2 = clock_reads list_world) /\
  (asdict sample_message sample_world
     = (Ok (VDict 3), with_heap (<[3%nat := fields sample_message]> (heap_of sample_world))
                                sample_world) /\
   round_trips (global_encoder sample_world)
     (<[3%nat := fields sample_message]> (heap_of sample_world)) (VDict 3) /\
   exists data m' w2,
     encode sample_message sample_world
       = (Ok data, with_heap (<[3%nat := fields sample_message]> (heap_of sample_world))
                             sample_world) /\
     decode data (with_heap (<[3%nat := fields sample_message]> (heap_of sample_world))
                            sample_world) = (Ok m', w2) /\
     Message_eq (heap_of w2) sample_message m' /\
     uid_draws w2 = uid_draws sample_world /\ clock_reads w2 = clock_reads sample_world).
Proof.
  split.
  - assert (Has : asdict sample_message list_world
      = (Ok (VDict 3), with_heap (<[3%nat := fields sample_message]> (heap_of list_world))
                                 list_world)) by reflexivity.
    assert (Hrt : round_trips (global_encoder list_world)
      (<[3%nat := fields sample_message]> (heap_of list_world)) (VDict 3))
      by run_round_trip.
    split; [exact Has|]. split; [exact Hrt|].
    split; [eexists; repeat split; vm_compute; reflexivity|].
    exact (decode_encode_round_trip sample_message list_world _ _ Has Hrt).
  - assert (Has : asdict sample_message sample_world
      = (Ok (VDict 3), with_heap (<[3%nat := fields sample_message]> (heap_of sample_world))
                                 sample_world)) by reflexivity.
    assert (Hrt : round_trips (global_encoder sample_world)
      (<[3%nat := fields sample_message]> (heap_of sample_world)) (VDict 3))
      by run_round_trip.
    split; [exact Has|]. split; [exact Hrt|].
    exact (decode_encode_round_trip sample_message sample_world _ _ Has Hrt).
Defined.

(** Options [{a: 1, b: 2}] copied with the override [{b: 3, c: 4}] give
    [{a: 1, b: 3, c: 4}]. *)
Lemma copy_merges_options_witness :
  options sample_message = VDict 1 /\
  heap_of sample_world !! 1%nat = Some [("a", VInt 1); ("b", VInt 2)] /\
  override_contents (heap_of sample_world) [("options", VDict 2)]
    = Some [("b", VInt 3); ("c", VInt 4)] /\
  NoDup (dict_keys [("b", VInt 3); ("c", VInt 4)]) /\
  unexpected_keyword [("options", VDict 2)] = None /\
  iter_items (heap_of sample_world)
    (default (VTuple (args sample_message)) (dict_get "args" [("options", VDict 2)]))
    = Some [VInt 1; VInt 2; VInt 3] /\
  exists m' w',
    copy sample_message [("options", VDict 2)] sample_world = (Ok m', w') /\
    contents (heap_of w') (options m')
      = Some [("a", VInt 1); ("b", VInt 3); ("c", VInt 4)] /\
    contents (heap_of w') (options sample_message)
      = Some [("a", VInt 1); ("b", VInt 2)].
Proof.
  assert (Hnd : NoDup (dict_keys [("b", VInt 3); ("c", VInt 4)])).
  { apply (bool_decide_unpack _). vm_compute. exact I. }
  repeat (split; [first [exact Hnd | reflexivity]|]).
  destruct (copy_merges_options sample_message [("options", VDict 2)] sample_world
              1%nat [("a", VInt 1); ("b", VInt 2)] [("b", VInt 3); ("c", VInt 4)]
              [VInt 1; VInt 2; VInt 3]
              eq_refl eq_refl eq_refl eq_refl eq_refl Hnd)
    as (m' & w' & Hcopy & Hnew & _ & _ & Hold).
  exists m', w'. split; [exact Hcopy|]. split; [exact Hnew | exact Hold].
Defined.

(** A copy that overrides [queue_name] only keeps the id, the timestamp and
    the other fields. *)
Lemma copy_preserves_identity_witness :
  options sample_message = VDict 1 /\
  heap_of sample_world !! 1%nat = Some [("a", VInt 1); ("b", VInt 2)] /\
  override_contents (heap_of sample_world) [("queue_name", VStr "other")] = Some [] /\
  unexpected_keyword [("queue_name", VStr "other")] = None /\
  iter_items (heap_of sample_world)
    (default (VTuple (args sample_message))
             (dict_get "args" [("queue_name", VStr "other")]))
    = Some [VInt 1; VInt 2; VInt 3] /\
  dict_get "message_id" [("queue_name", VStr "other")] = None /\
  dict_get "message_timestamp" [("queue_name", VStr "other")] = None /\
  exists m' w',
    copy sample_message [("queue_name", VStr "other")] sample_world = (Ok m', w') /\
    message_id m' = VStr "id-0" /\
    message_timestamp m' = VInt 1700000000000 /\
    args m' = [VInt 1; VInt 2; VInt 3] /\
    kwargs m' = VDict 0 /\
    py_eq (heap_of w') (VDict 1) (options m').
Proof.
  repeat (split; [reflexivity|]).
  destruct (copy_preserves_identity sample_message [("queue_name", VStr "other")]
              sample_world 1%nat [("a", VInt 1); ("b", VInt 2)] []
              [VInt 1; VInt 2; VInt 3]
              eq_refl eq_refl eq_refl eq_refl eq_refl eq_refl eq_refl)
    as (m' & w' & Hcopy & Hid & Hts & _ & _ & Hargs & Hkw & Hopts & _).
  exists m', w'. split; [exact Hcopy|].
  split; [exact Hid|]. split; [exact Hts|].
  split; [exact (Hargs eq_refl)|]. split; [exact (Hkw eq_refl)|].
  exact (Hopts eq_refl).
Defined.

(** The list [[1, 2, 3]] given as [args] is stored as the tuple [(1, 2, 3)]. *)
Lemma args_normalised_witness :
  binds_fields sample_kw = true /\
  dict_get "args" sample_kw = Some (VList [VInt 1; VInt 2; VInt 3]) /\
  iter_items (heap_of sample_world) (VList [VInt 1; VInt 2; VInt 3])
    = Some [VInt 1; VInt 2; VInt 3] /\
  exists m,
    Message_init sample_kw sample_world = (Ok m, after_init sample_kw sample_world) /\
    args m = [VInt 1; VInt 2; VInt 3] /\
    dict_get "args" (fields m) = Some (VTuple [VInt 1; VInt 2; VInt 3]).
Proof.
  repeat (split; [reflexivity|]).
  exact (proj1 (args_normalised sample_kw sample_world
                  (VList [VInt 1; VInt 2; VInt 3]) [VInt 1; VInt 2; VInt 3]
                  eq_refl eq_refl eq_refl)).
Defined.

(** After [set_encoder ReversedEncoder], an encoding, a copy and a progress
    report, the encoder in place is still [ReversedEncoder]. *)
Lemma encoder_swap_witness :
  forallb (fun o => negb (is_set_encoder o))
    [OpEncode sample_message; OpCopy sample_message [("options", VDict 2)];
     OpSetProgress sample_message (NReal 1)] = true /\
  get_encoder
    (run [OpEncode sample_message; OpCopy sample_message [("options", VDict 2)];
          OpSetProgress sample_message (NReal 1)]
         (set_encoder ReversedEncoder sample_world).2)
  = (Ok ReversedEncoder,
     run [OpEncode sample_message; OpCopy sample_message [("options", VDict 2)];
          OpSetProgress sample_message (NReal 1)]
         (set_encoder ReversedEncoder sample_world).2).
Proof.
  split; [reflexivity|].
  exact (proj1 (encoder_swap ReversedEncoder
                  [OpEncode sample_message;
                   OpCopy sample_message [("options", VDict 2)];
                   OpSetProgress sample_message (NReal 1)]
                  sample_world eq_refl)).
Defined.

(** [build] with the dict [{b: 3, c: 4}] on the sample message. *)
Lemma build_is_copy_of_options_witness :
  options sample_message = VDict 1 /\
  heap_of sample_world !! 1%nat = Some [("a", VInt 1); ("b", VInt 2)] /\
  heap_of sample_world !! 2%nat = Some [("b", VInt 3); ("c", VInt 4)] /\
  build sample_message (VDict 2) sample_world
    = copy sample_message [("options", VDict 2)] sample_world /\
  exists m' w',
    build sample_message (VDict 2) sample_world = (Ok m', w') /\
    contents (heap_of w') (options m')
      = Some [("a", VInt 1); ("b", VInt 3); ("c", VInt 4)].
Proof.
  do 3 (split; [reflexivity|]).
  destruct (build_is_copy_of_options sample_message (VDict 2) sample_world
              1%nat 2%nat [("a", VInt 1); ("b", VInt 2)] [("b", VInt 3); ("c", VInt 4)]
              eq_refl eq_refl eq_refl eq_refl)
    as (Heq & m' & w' & Hbuild & Hnew & _).
  split; [exact Heq|].
  exists m', w'. split; [exact Hbuild | exact Hnew].
Defined.

(** A payload without [message_id] and [message_timestamp] is decoded to a
    message with the first id of the generator and the first reading of the
    clock. *)
Lemma decode_checks_fields_witness :
  enc_decode (global_encoder sample_world) (heap_of sample_world) sample_payload
    = Ok (VDict 5,
          <[5%nat := [("queue_name", VStr "default"); ("actor_name", VStr "add");
                      ("args", VList [VInt 1; VInt 2; VInt 3]);
                      ("kwargs", VDict 3); ("options", VDict 4)]]>
            (<[4%nat := [("a", VInt 1); ("b", VInt 2)]]>
               (<[3%nat := [("n", VInt 1)]]> (heap_of sample_world)))) /\
  exists m w',
    decode sample_payload sample_world = (Ok m, w') /\
    queue_name m = VStr "default" /\
    args m = [VInt 1; VInt 2; VInt 3] /\
    message_id m = VStr "id-" /\
    message_timestamp m = VInt 1700000000000 /\
    uid_draws w' = 1%nat /\ clock_reads w' = 1%nat.
Proof.
  assert (Hdec :
    enc_decode (global_encoder sample_world) (heap_of sample_world) sample_payload
    = Ok (VDict 5,
          <[5%nat := [("queue_name", VStr "default"); ("actor_name", VStr "add");
                      ("args", VList [VInt 1; VInt 2; VInt 3]);
                      ("kwargs", VDict 3); ("options", VDict 4)]]>
            (<[4%nat := [("a", VInt 1); ("b", VInt 2)]]>
               (<[3%nat := [("n", VInt 1)]]> (heap_of sample_world)))))
    by (vm_compute; reflexivity).
  split; [exact Hdec|].
  destruct (decode_checks_fields sample_payload sample_world 5%nat _ _ Hdec
              (lookup_insert_eq _ _ _)) as (_ & _ & Hok & _).
  destruct (Hok eq_refl) as (m & Hm & Hq & _ & _ & _ & Hargs & Hid & Hts & Hdraw & Hclock).
  { intros ar Har. injection Har as <-. by eexists. }
  exists m. eexists. split; [exact Hm|].
  split; [simpl in Hq; congruence|].
  split; [simpl in Hargs; congruence|].
  split; [exact Hid|]. split; [exact Hts|].
  split; [exact (Hdraw eq_refl) | exact (Hclock eq_refl)].
Defined.

(** The message constructed from the sample keywords shares the caller's
    dicts 0 and 1. *)
Lemma construction_shares_mappings_witness :
  binds_fields sample_kw = true /\
  dict_get "kwargs" sample_kw = Some (VDict 0) /\
  dict_get "options" sample_kw = Some (VDict 1) /\
  heap_of sample_world !! 0%nat = Some [("n", VInt 1)] /\
  heap_of sample_world !! 1%nat = Some [("a", VInt 1); ("b", VInt 2)] /\
  exists m w1,
    Message_init sample_kw sample_world = (Ok m, w1) /\
    kwargs m = VDict 0 /\ options m = VDict 1 /\
    heap_of w1 = heap_of sample_world /\
    contents (heap_of (setitem (VDict 0) "n" (VInt 2) w1).2) (kwargs m)
      = Some [("n", VInt 2)] /\
    contents (heap_of (setitem (options m) "c" (VInt 3) w1).2) (VDict 1)
      = Some [("a", VInt 1); ("b", VInt 2); ("c", VInt 3)].
Proof.
  repeat (split; [reflexivity|]).
  destruct (construction_shares_mappings sample_kw sample_world (VDict 0) (VDict 1)
              0%nat 1%nat [("n", VInt 1)] [("a", VInt 1); ("b", VInt 2)] eq_refl)
    as (m & w1 & Hm & Hk & Ho & Hh & Hck & _ & _ & Hmo); try reflexivity.
  { intros ar Har. injection Har as <-. by eexists. }
  exists m, w1. split; [exact Hm|]. split; [exact Hk|]. split; [exact Ho|].
  split; [exact Hh|]. split; [exact (Hck "n" (VInt 2)) | exact (Hmo "c" (VInt 3))].
Defined.

(** Against C4 as the specification states it (the mappings stored by
    value): the message is constructed with the caller's dicts 0 and 1 as
    [kwargs] and [options]; when the caller then assigns [n] in its dict 0,
    the [kwargs] of the message change from [{n: 1}] to [{n: 2}], and when
    [b] is assigned through the [options] of the message, the caller's
    dict 1 changes from [{a: 1, b: 2}] to [{a: 1, b: 9}]. *)
Lemma mappings_stored_by_value_counterexample :
  exists m,
    Message_init sample_kw sample_world = (Ok m, after_init sample_kw sample_world) /\
    contents (heap_of (after_init sample_kw sample_world)) (kwargs m)
      = Some [("n", VInt 1)] /\
    contents
      (heap_of (setitem (VDict 0) "n" (VInt 2) (after_init sample_kw sample_world)).2)
      (kwargs m)
      = Some [("n", VInt 2)] /\
    contents (heap_of (after_init sample_kw sample_world)) (VDict 1)
      = Some [("a", VInt 1); ("b", VInt 2)] /\
    contents
      (heap_of (setitem (options m) "b" (VInt 9) (after_init sample_kw sample_world)).2)
      (VDict 1)
      = Some [("a", VInt 1); ("b", VInt 9)].
Proof.
  eexists. split; [reflexivity|].
  repeat split; vm_compute; reflexivity.
Qed.
